(** * ts-results-es: the Option and Result variant pairs

    A shallow embedding of [src/option.ts] and [src/result.ts] and the
    properties of their combinators, aggregators and exception boundary. *)

From Stdlib Require Import List String Ascii ZArith Arith Lia Bool.
Import ListNotations.
Local Open Scope string_scope.
Local Set Warnings "-register-all".

(** ** JavaScript values

    The library is untyped at run time: payloads are arbitrary values, and an
    [Option] or a [Result] may itself be the payload of another one.  Only
    integral numbers are represented; nothing below computes on them. *)

Inductive Value : Type :=
| VUndefined
| VNull
| VBoolean (b : bool)
| VNumber (n : Z)
| VString (s : string)
| VArray (items : list Value)
| VObject (props : list (string * Value))
| VError (message : string) (cause : option Value)
| VOption (o : Option)
| VResult (r : Result)
with Option : Type :=
| None
| Some (val : Value)
with Result : Type :=
| Ok (val : Value)
| Err (val : Value) (_stack : string).

(** [readonly some], [readonly none] and [val] of the two Option classes.
    [NoneImpl] declares no [val]: reading it gives [undefined]. *)
Definition some (o : Option) : bool :=
  match o with Some _ => true | None => false end.

Definition none (o : Option) : bool :=
  match o with Some _ => false | None => true end.

Definition Option_val (o : Option) : Value :=
  match o with Some v => v | None => VUndefined end.

(** [readonly ok], [readonly err] and [val] of the two Result classes. *)
Definition ok (r : Result) : bool :=
  match r with Ok _ => true | Err _ _ => false end.

Definition err (r : Result) : bool :=
  match r with Ok _ => false | Err _ _ => true end.

Definition Result_val (r : Result) : Value :=
  match r with Ok v => v | Err e _ => e end.

(** ** Completions and effects

    A call either returns or throws a value; a caller-supplied function may
    also change the world [W] it closes over, and what it changed stays
    changed when it throws. *)

Inductive Completion (A : Type) : Type :=
| Normal (a : A)
| Throw (e : Value).

Arguments Normal {A} a.
Arguments Throw {A} e.

Definition Eff (W A : Type) : Type := W -> Completion A * W.

Definition ret {W A : Type} (a : A) : Eff W A :=
  fun w => (Normal a, w).

Definition throw {W A : Type} (e : Value) : Eff W A :=
  fun w => (Throw e, w).

Definition bind {W A B : Type} (c : Eff W A) (k : A -> Eff W B) : Eff W B :=
  fun w =>
    match c w with
    | (Normal a, w') => k a w'
    | (Throw e, w') => (Throw e, w')
    end.

Definition try_catch {W A : Type} (body : Eff W A) (handler : Value -> Eff W A)
  : Eff W A :=
  fun w =>
    match body w with
    | (Normal a, w') => (Normal a, w')
    | (Throw e, w') => handler e w'
    end.

Definition lift {W A : Type} (c : Completion A) : Eff W A :=
  fun w => (c, w).

Declare Scope eff_scope.
Delimit Scope eff_scope with eff.
Notation "x <- c ;; k" := (bind c (fun x => k))
  (at level 100, c at next level, right associativity) : eff_scope.
Local Open Scope eff_scope.

(** ** The call-stack snapshot of [ErrImpl]'s constructor *)

Definition newline : ascii := "010"%char.

(** [s.split('\n')] *)
Fixpoint split_lines (s : string) : list string :=
  match s with
  | EmptyString => [EmptyString]
  | String c rest =>
      if Ascii.eqb c newline then EmptyString :: split_lines rest
      else match split_lines rest with
           | line :: lines => String c line :: lines
           | [] => [String c EmptyString]
           end
  end.

(** [lines.join('\n')] *)
Definition join_lines (lines : list string) : string :=
  String.concat (String newline EmptyString) lines.

(** [line.includes(needle)] *)
Definition includes (needle line : string) : bool :=
  match index 0 needle line with
  | Datatypes.Some _ => true
  | Datatypes.None => false
  end.

(** The constructor's treatment of [new Error().stack]: the first two lines
    go, then a leading frame that names [ErrImpl]. *)
Definition captureStack (stack : string) : string :=
  let stackLines := skipn 2 (split_lines stack) in
  let stackLines :=
    match stackLines with
    | first :: others => if includes "ErrImpl" first then others else stackLines
    | [] => stackLines
    end in
  join_lines stackLines.

(** [new ErrImpl(val)], also reached by the call [Err(val)] without [new];
    [stack] is the text [new Error().stack] has inside the constructor.
    [OkImpl]'s and [SomeImpl]'s constructors only store [val]: they are the
    constructors [Ok] and [Some]. *)
Definition new_Err (stack : string) (val : Value) : Result :=
  Err val (captureStack stack).

(** ** Iteration *)

Record IteratorResult : Type := { done : bool; value : Value }.

(** The iterator objects the library can hand out: its own object literal,
    whose [next] is always done, and the built-in iterator of an array or of a
    string, at a position in the element sequence. *)
Inductive Iterator : Type :=
| EmptyIterator
| SeqIterator (items : list Value) (nextIndex : nat).

Definition next (it : Iterator) : IteratorResult * Iterator :=
  match it with
  | EmptyIterator => ({| done := true; value := VUndefined |}, EmptyIterator)
  | SeqIterator items i =>
      match nth_error items i with
      | Datatypes.Some x =>
          ({| done := false; value := x |}, SeqIterator items (S i))
      | Datatypes.None =>
          ({| done := true; value := VUndefined |}, SeqIterator items i)
      end
  end.

(** [for (const x of it)], collecting what is yielded. *)
Fixpoint for_of (fuel : nat) (it : Iterator) : option (list Value) :=
  match fuel with
  | O => Datatypes.None
  | S fuel' =>
      let (r, it') := next it in
      if done r then Datatypes.Some []
      else match for_of fuel' it' with
           | Datatypes.Some rest => Datatypes.Some (value r :: rest)
           | Datatypes.None => Datatypes.None
           end
  end.

(** A string iterates over its characters. *)
Definition string_chars (s : string) : list Value :=
  List.map (fun c => VString (String c EmptyString)) (list_ascii_of_string s).

(** [get_iterator v] is [Object(v)[Symbol.iterator]()] when
    [Symbol.iterator in Object(v)], and nothing otherwise.  The two other
    functions are [[Symbol.iterator]()] of the Option classes (option.ts 109,
    180) and of the Result classes (result.ts 476, 593). *)
Fixpoint get_iterator (v : Value) : option Iterator :=
  match v with
  | VString s => Datatypes.Some (SeqIterator (string_chars s) 0)
  | VArray items => Datatypes.Some (SeqIterator items 0)
  | VOption o => Datatypes.Some (Option_iterator o)
  | VResult r => Datatypes.Some (Result_iterator r)
  | VUndefined | VNull | VBoolean _ | VNumber _ | VObject _ | VError _ _ =>
      Datatypes.None
  end
with Option_iterator (o : Option) : Iterator :=
  match o with
  | None => EmptyIterator
  | Some val =>
      match get_iterator val with
      | Datatypes.Some it => it
      | Datatypes.None => EmptyIterator
      end
  end
with Result_iterator (r : Result) : Iterator :=
  match r with
  | Err _ _ => EmptyIterator
  | Ok val =>
      match get_iterator val with
      | Datatypes.Some it => it
      | Datatypes.None => EmptyIterator
      end
  end.

(** ** option.ts *)

Module NoneImpl.
Section Methods.
Context {W : Type}.

Definition iterator : Iterator := Option_iterator None.

Definition unwrapOr (val : Value) : Value := val.

Definition expect (msg : string) : Completion Value :=
  Throw (VError msg Datatypes.None).

Definition unwrap : Completion Value :=
  Throw (VError "Tried to unwrap None" Datatypes.None).

Definition map (_mapper : Value -> Eff W Value) : Eff W Option :=
  ret None.

Definition mapOr (default_ : Value) (_mapper : Value -> Eff W Value)
  : Eff W Value :=
  ret default_.

Definition mapOrElse (default_ : unit -> Eff W Value)
    (_mapper : Value -> Eff W Value) : Eff W Value :=
  default_ tt.

Definition or (other : Option) : Option := other.

Definition orElse (other : unit -> Eff W Option) : Eff W Option :=
  other tt.

Definition andThen (op : Value -> Eff W Option) : Eff W Option :=
  ret None.

Definition toResult (stack : string) (error : Value) : Result :=
  new_Err stack error.

Definition toString : string := "None".
End Methods.
End NoneImpl.

Module SomeImpl.
Section Methods.
Context {W : Type}.
Variable utils_toString : Value -> string.
Variable val : Value.

Definition iterator : Iterator := Option_iterator (Some val).

Definition unwrapOr (_val : Value) : Value := val.

Definition expect (_msg : string) : Completion Value := Normal val.

Definition unwrap : Completion Value := Normal val.

Definition map (mapper : Value -> Eff W Value) : Eff W Option :=
  r <- mapper val ;; ret (Some r).

Definition mapOr (_default_ : Value) (mapper : Value -> Eff W Value)
  : Eff W Value :=
  mapper val.

Definition mapOrElse (_default_ : unit -> Eff W Value)
    (mapper : Value -> Eff W Value) : Eff W Value :=
  mapper val.

Definition or (_other : Option) : Option := Some val.

Definition orElse (_other : unit -> Eff W Option) : Eff W Option :=
  ret (Some val).

Definition andThen (mapper : Value -> Eff W Option) : Eff W Option :=
  mapper val.

Definition toResult (error : Value) : Result := Ok val.

Definition safeUnwrap : Value := val.

Definition toString : string := "Some(" ++ utils_toString val ++ ")".
End Methods.
End SomeImpl.

Module Option.

(** The loop of [all], with [someOption] as filled so far. *)
Fixpoint all_loop (someOption : list Value) (options : list Option) : Option :=
  match options with
  | [] => Some (VArray someOption)
  | option :: rest =>
      if some option then all_loop (someOption ++ [Option_val option]) rest
      else option
  end.

Definition all (options : list Option) : Option := all_loop [] options.

(** Both branches of the loop body return, so the loop never reaches a
    second element. *)
Definition any (options : list Option) : Option :=
  match options with
  | [] => None
  | option :: _ => if some option then option else option
  end.

Definition isOption (value : Value) : bool :=
  match value with
  | VOption _ => true
  | _ => false
  end.

(** [Option.of]; [of] alone is a keyword here. *)
Definition of_ (value : Value) : Option :=
  match value with
  | VNull | VUndefined => None
  | _ => Some value
  end.

End Option.

(** ** result.ts *)

Module ErrImpl.
Section Methods.
Context {W : Type}.
Variable utils_toString : Value -> string.
Variable val : Value.
Variable _stack : string.

Definition iterator : Iterator := Result_iterator (Err val _stack).

Definition else_ (val' : Value) : Value := val'.

Definition unwrapOr (val' : Value) : Value := val'.

Definition expect (msg : string) : Completion Value :=
  Throw (VError (msg ++ " - Error: " ++ utils_toString val
                     ++ String newline _stack)
                (Datatypes.Some val)).

Definition expectErr (_msg : string) : Completion Value := Normal val.

Definition unwrap : Completion Value :=
  Throw (VError ("Tried to unwrap Error: " ++ utils_toString val
                     ++ String newline _stack)
                (Datatypes.Some val)).

Definition unwrapErr : Completion Value := Normal val.

Definition map (_mapper : Value -> Eff W Value) : Eff W Result :=
  ret (Err val _stack).

Definition andThen (op : Value -> Eff W Result) : Eff W Result :=
  ret (Err val _stack).

Definition mapErr (stack : string) (mapper : Value -> Eff W Value)
  : Eff W Result :=
  r <- mapper val ;; ret (new_Err stack r).

Definition mapOr (default_ : Value) (_mapper : Value -> Eff W Value)
  : Eff W Value :=
  ret default_.

Definition mapOrElse (default_ : unit -> Eff W Value)
    (_mapper : Value -> Eff W Value) : Eff W Value :=
  default_ tt.

Definition or (other : Result) : Result := other.

Definition orElse (other : unit -> Eff W Result) : Eff W Result :=
  other tt.

Definition toOption : Option := None.

Definition toString : string := "Err(" ++ utils_toString val ++ ")".

Definition stack : string := toString ++ String newline _stack.
End Methods.
End ErrImpl.

Module OkImpl.
Section Methods.
Context {W : Type}.
Variable utils_toString : Value -> string.
Variable val : Value.

Definition iterator : Iterator := Result_iterator (Ok val).

Definition else_ (_val : Value) : Value := val.

Definition unwrapOr (_val : Value) : Value := val.

Definition expect (_msg : string) : Completion Value := Normal val.

Definition expectErr (msg : string) : Completion Value :=
  Throw (VError msg Datatypes.None).

Definition unwrap : Completion Value := Normal val.

Definition unwrapErr : Completion Value :=
  Throw (VError ("Tried to unwrap Ok: " ++ utils_toString val)
                (Datatypes.Some val)).

Definition map (mapper : Value -> Eff W Value) : Eff W Result :=
  r <- mapper val ;; ret (Ok r).

Definition andThen (mapper : Value -> Eff W Result) : Eff W Result :=
  mapper val.

Definition mapErr (_mapper : Value -> Eff W Value) : Eff W Result :=
  ret (Ok val).

Definition mapOr (_default_ : Value) (mapper : Value -> Eff W Value)
  : Eff W Value :=
  mapper val.

Definition mapOrElse (_default_ : unit -> Eff W Value)
    (mapper : Value -> Eff W Value) : Eff W Value :=
  mapper val.

Definition or (_other : Result) : Result := Ok val.

Definition orElse (_other : unit -> Eff W Result) : Eff W Result :=
  ret (Ok val).

Definition toOption : Option := Some val.

Definition safeUnwrap : Value := val.

Definition toString : string := "Ok(" ++ utils_toString val ++ ")".
End Methods.
End OkImpl.

(** ** Promises

    A promise is taken at its settlement: fulfilled, rejected, or never
    settled.  The reactions below are the ones [wrapAsync] installs; neither
    returns a thenable. *)

Inductive Promise : Type :=
| Pending
| Fulfilled (value : Value)
| Rejected (reason : Value).

Definition settle (c : Completion Value) : Promise :=
  match c with
  | Normal v => Fulfilled v
  | Throw e => Rejected e
  end.

(** [p.then(onFulfilled)] *)
Definition Promise_then (p : Promise) (onFulfilled : Value -> Completion Value)
  : Promise :=
  match p with
  | Pending => Pending
  | Fulfilled v => settle (onFulfilled v)
  | Rejected e => Rejected e
  end.

(** [p.catch(onRejected)] *)
Definition Promise_catch (p : Promise) (onRejected : Value -> Completion Value)
  : Promise :=
  match p with
  | Pending => Pending
  | Fulfilled v => Fulfilled v
  | Rejected e => settle (onRejected e)
  end.

(** [Promise.resolve(v)] for a [v] that is not a thenable. *)
Definition Promise_resolve (v : Value) : Promise := Fulfilled v.

Module Result.
Section Statics.
Context {W : Type}.

(** The loop of [all], with [okResult] as filled so far. *)
Fixpoint all_loop (okResult : list Value) (results : list Result) : Result :=
  match results with
  | [] => Ok (VArray okResult)
  | result :: rest =>
      if ok result then all_loop (okResult ++ [Result_val result]) rest
      else result
  end.

Definition all (results : list Result) : Result := all_loop [] results.

(** The loop of [any], with [errResult] as filled so far; [stack] is for the
    [Err] built once the loop is through. *)
Fixpoint any_loop (stack : string) (errResult : list Value)
    (results : list Result) : Result :=
  match results with
  | [] => new_Err stack (VArray errResult)
  | result :: rest =>
      if ok result then result
      else any_loop stack (errResult ++ [Result_val result]) rest
  end.

Definition any (stack : string) (results : list Result) : Result :=
  any_loop stack [] results.

Definition wrap (stack : string) (op : unit -> Eff W Value) : Eff W Result :=
  try_catch (r <- op tt ;; ret (Ok r))
            (fun e => ret (new_Err stack e)).

Definition wrapAsync (stack : string) (op : unit -> Eff W Promise)
  : Eff W Promise :=
  try_catch
    (p <- op tt ;;
     ret (Promise_catch
            (Promise_then p (fun val => Normal (VResult (Ok val))))
            (fun e => Normal (VResult (new_Err stack e)))))
    (fun e => ret (Promise_resolve (VResult (new_Err stack e)))).

Definition isResult (val : Value) : bool :=
  match val with
  | VResult _ => true
  | _ => false
  end.

End Statics.
End Result.

(** ** Method calls on a value of the union type

    [o.m(args)] runs [m] of the class of [o]; the two modules below follow the
    interfaces [BaseOption] and [BaseResult] member by member, together with
    [toString] and [[Symbol.iterator]], which both classes of a pair define. *)

Module BaseOption.
Section Dispatch.
Context {W : Type}.
Variable utils_toString : Value -> string.

Definition iterator (this : Option) : Iterator := Option_iterator this.

Definition expect (this : Option) (msg : string) : Completion Value :=
  match this with
  | None => NoneImpl.expect msg
  | Some val => SomeImpl.expect val msg
  end.

Definition unwrap (this : Option) : Completion Value :=
  match this with
  | None => NoneImpl.unwrap
  | Some val => SomeImpl.unwrap val
  end.

Definition unwrapOr (this : Option) (val' : Value) : Value :=
  match this with
  | None => NoneImpl.unwrapOr val'
  | Some val => SomeImpl.unwrapOr val val'
  end.

Definition andThen (this : Option) (mapper : Value -> Eff W Option)
  : Eff W Option :=
  match this with
  | None => NoneImpl.andThen mapper
  | Some val => SomeImpl.andThen val mapper
  end.

Definition map (this : Option) (mapper : Value -> Eff W Value) : Eff W Option :=
  match this with
  | None => NoneImpl.map mapper
  | Some val => SomeImpl.map val mapper
  end.

Definition mapOr (this : Option) (default_ : Value)
    (mapper : Value -> Eff W Value) : Eff W Value :=
  match this with
  | None => NoneImpl.mapOr default_ mapper
  | Some val => SomeImpl.mapOr val default_ mapper
  end.

Definition mapOrElse (this : Option) (default_ : unit -> Eff W Value)
    (mapper : Value -> Eff W Value) : Eff W Value :=
  match this with
  | None => NoneImpl.mapOrElse default_ mapper
  | Some val => SomeImpl.mapOrElse val default_ mapper
  end.

Definition or (this : Option) (other : Option) : Option :=
  match this with
  | None => NoneImpl.or other
  | Some val => SomeImpl.or val other
  end.

Definition orElse (this : Option) (other : unit -> Eff W Option)
  : Eff W Option :=
  match this with
  | None => NoneImpl.orElse other
  | Some val => SomeImpl.orElse val other
  end.

Definition toResult (stack : string) (this : Option) (error : Value) : Result :=
  match this with
  | None => NoneImpl.toResult stack error
  | Some val => SomeImpl.toResult val error
  end.

Definition toString (this : Option) : string :=
  match this with
  | None => NoneImpl.toString
  | Some val => SomeImpl.toString utils_toString val
  end.

End Dispatch.
End BaseOption.

Module BaseResult.
Section Dispatch.
Context {W : Type}.
Variable utils_toString : Value -> string.

Definition iterator (this : Result) : Iterator := Result_iterator this.

Definition expect (this : Result) (msg : string) : Completion Value :=
  match this with
  | Err val _stack => ErrImpl.expect utils_toString val _stack msg
  | Ok val => OkImpl.expect val msg
  end.

Definition expectErr (this : Result) (msg : string) : Completion Value :=
  match this with
  | Err val _stack => ErrImpl.expectErr val msg
  | Ok val => OkImpl.expectErr msg
  end.

Definition unwrap (this : Result) : Completion Value :=
  match this with
  | Err val _stack => ErrImpl.unwrap utils_toString val _stack
  | Ok val => OkImpl.unwrap val
  end.

Definition unwrapErr (this : Result) : Completion Value :=
  match this with
  | Err val _stack => ErrImpl.unwrapErr val
  | Ok val => OkImpl.unwrapErr utils_toString val
  end.

Definition else_ (this : Result) (val' : Value) : Value :=
  match this with
  | Err val _stack => ErrImpl.else_ val'
  | Ok val => OkImpl.else_ val val'
  end.

Definition unwrapOr (this : Result) (val' : Value) : Value :=
  match this with
  | Err val _stack => ErrImpl.unwrapOr val'
  | Ok val => OkImpl.unwrapOr val val'
  end.

Definition andThen (this : Result) (mapper : Value -> Eff W Result)
  : Eff W Result :=
  match this with
  | Err val _stack => ErrImpl.andThen val _stack mapper
  | Ok val => OkImpl.andThen val mapper
  end.

Definition map (this : Result) (mapper : Value -> Eff W Value) : Eff W Result :=
  match this with
  | Err val _stack => ErrImpl.map val _stack mapper
  | Ok val => OkImpl.map val mapper
  end.

Definition mapErr (stack : string) (this : Result)
    (mapper : Value -> Eff W Value) : Eff W Result :=
  match this with
  | Err val _stack => ErrImpl.mapErr val stack mapper
  | Ok val => OkImpl.mapErr val mapper
  end.

Definition mapOr (this : Result) (default_ : Value)
    (mapper : Value -> Eff W Value) : Eff W Value :=
  match this with
  | Err val _stack => ErrImpl.mapOr default_ mapper
  | Ok val => OkImpl.mapOr val default_ mapper
  end.

Definition mapOrElse (this : Result) (default_ : unit -> Eff W Value)
    (mapper : Value -> Eff W Value) : Eff W Value :=
  match this with
  | Err val _stack => ErrImpl.mapOrElse default_ mapper
  | Ok val => OkImpl.mapOrElse val default_ mapper
  end.

Definition or (this : Result) (other : Result) : Result :=
  match this with
  | Err val _stack => ErrImpl.or other
  | Ok val => OkImpl.or val other
  end.

Definition orElse (this : Result) (other : unit -> Eff W Result)
  : Eff W Result :=
  match this with
  | Err val _stack => ErrImpl.orElse other
  | Ok val => OkImpl.orElse val other
  end.

Definition toOption (this : Result) : Option :=
  match this with
  | Err val _stack => ErrImpl.toOption
  | Ok val => OkImpl.toOption val
  end.

Definition toString (this : Result) : string :=
  match this with
  | Err val _stack => ErrImpl.toString utils_toString val
  | Ok val => OkImpl.toString utils_toString val
  end.

End Dispatch.
End BaseResult.

(** ** Calls as data

    One constructor per member of the two interfaces, holding the arguments of
    the call, so that a property can range over every operation. *)

Inductive Returned : Type :=
| RValue (v : Value)
| RIterator (it : Iterator).

Inductive OptionCall (W : Type) : Type :=
| option_iterator
| option_expect (msg : string)
| option_unwrap
| option_unwrapOr (val : Value)
| option_andThen (mapper : Value -> Eff W Option)
| option_map (mapper : Value -> Eff W Value)
| option_mapOr (default_ : Value) (mapper : Value -> Eff W Value)
| option_mapOrElse (default_ : unit -> Eff W Value)
    (mapper : Value -> Eff W Value)
| option_or (other : Option)
| option_orElse (other : unit -> Eff W Option)
| option_toResult (error : Value)
| option_toString.

Inductive ResultCall (W : Type) : Type :=
| result_iterator
| result_expect (msg : string)
| result_expectErr (msg : string)
| result_unwrap
| result_unwrapErr
| result_else (val : Value)
| result_unwrapOr (val : Value)
| result_andThen (mapper : Value -> Eff W Result)
| result_map (mapper : Value -> Eff W Value)
| result_mapErr (mapper : Value -> Eff W Value)
| result_mapOr (default_ : Value) (mapper : Value -> Eff W Value)
| result_mapOrElse (default_ : unit -> Eff W Value)
    (mapper : Value -> Eff W Value)
| result_or (other : Result)
| result_orElse (other : unit -> Eff W Result)
| result_toOption
| result_toString.

Arguments option_iterator {W}.
Arguments option_expect {W} msg.
Arguments option_unwrap {W}.
Arguments option_unwrapOr {W} val.
Arguments option_andThen {W} mapper.
Arguments option_map {W} mapper.
Arguments option_mapOr {W} default_ mapper.
Arguments option_mapOrElse {W} default_ mapper.
Arguments option_or {W} other.
Arguments option_orElse {W} other.
Arguments option_toResult {W} error.
Arguments option_toString {W}.
Arguments result_iterator {W}.
Arguments result_expect {W} msg.
Arguments result_expectErr {W} msg.
Arguments result_unwrap {W}.
Arguments result_unwrapErr {W}.
Arguments result_else {W} val.
Arguments result_unwrapOr {W} val.
Arguments result_andThen {W} mapper.
Arguments result_map {W} mapper.
Arguments result_mapErr {W} mapper.
Arguments result_mapOr {W} default_ mapper.
Arguments result_mapOrElse {W} default_ mapper.
Arguments result_or {W} other.
Arguments result_orElse {W} other.
Arguments result_toOption {W}.
Arguments result_toString {W}.

Section Calls.
Context {W : Type}.
Variable utils_toString : Value -> string.

(** [stack] is the text [new Error().stack] has if the call builds an [Err]. *)
Variable stack : string.

Definition fmap {A B : Type} (f : A -> B) (c : Eff W A) : Eff W B :=
  a <- c ;; ret (f a).

Definition value_of (c : Completion Value) : Eff W Returned :=
  fmap RValue (lift c).

Definition invoke_option (this : Option) (c : OptionCall W) : Eff W Returned :=
  match c with
  | option_iterator => ret (RIterator (BaseOption.iterator this))
  | option_expect msg => value_of (BaseOption.expect this msg)
  | option_unwrap => value_of (BaseOption.unwrap this)
  | option_unwrapOr val => ret (RValue (BaseOption.unwrapOr this val))
  | option_andThen mapper =>
      fmap (fun o => RValue (VOption o)) (BaseOption.andThen this mapper)
  | option_map mapper =>
      fmap (fun o => RValue (VOption o)) (BaseOption.map this mapper)
  | option_mapOr default_ mapper =>
      fmap RValue (BaseOption.mapOr this default_ mapper)
  | option_mapOrElse default_ mapper =>
      fmap RValue (BaseOption.mapOrElse this default_ mapper)
  | option_or other => ret (RValue (VOption (BaseOption.or this other)))
  | option_orElse other =>
      fmap (fun o => RValue (VOption o)) (BaseOption.orElse this other)
  | option_toResult error =>
      ret (RValue (VResult (BaseOption.toResult stack this error)))
  | option_toString =>
      ret (RValue (VString (BaseOption.toString utils_toString this)))
  end.

Definition invoke_result (this : Result) (c : ResultCall W) : Eff W Returned :=
  match c with
  | result_iterator => ret (RIterator (BaseResult.iterator this))
  | result_expect msg => value_of (BaseResult.expect utils_toString this msg)
  | result_expectErr msg => value_of (BaseResult.expectErr this msg)
  | result_unwrap => value_of (BaseResult.unwrap utils_toString this)
  | result_unwrapErr => value_of (BaseResult.unwrapErr utils_toString this)
  | result_else val => ret (RValue (BaseResult.else_ this val))
  | result_unwrapOr val => ret (RValue (BaseResult.unwrapOr this val))
  | result_andThen mapper =>
      fmap (fun r => RValue (VResult r)) (BaseResult.andThen this mapper)
  | result_map mapper =>
      fmap (fun r => RValue (VResult r)) (BaseResult.map this mapper)
  | result_mapErr mapper =>
      fmap (fun r => RValue (VResult r)) (BaseResult.mapErr stack this mapper)
  | result_mapOr default_ mapper =>
      fmap RValue (BaseResult.mapOr this default_ mapper)
  | result_mapOrElse default_ mapper =>
      fmap RValue (BaseResult.mapOrElse this default_ mapper)
  | result_or other => ret (RValue (VResult (BaseResult.or this other)))
  | result_orElse other =>
      fmap (fun r => RValue (VResult r)) (BaseResult.orElse this other)
  | result_toOption => ret (RValue (VOption (BaseResult.toOption this)))
  | result_toString =>
      ret (RValue (VString (BaseResult.toString utils_toString this)))
  end.

(** The accessors that throw on the wrong variant. *)
Definition unsafe_option (c : OptionCall W) : bool :=
  match c with
  | option_expect _ | option_unwrap => true
  | _ => false
  end.

Definition unsafe_result (c : ResultCall W) : bool :=
  match c with
  | result_expect _ | result_expectErr _ | result_unwrap | result_unwrapErr =>
      true
  | _ => false
  end.

(** A caller-supplied function that returns whenever it is called. *)
Definition returns {A B : Type} (f : A -> Eff W B) : Prop :=
  forall a w, exists b w', f a w = (Normal b, w').

Definition option_callbacks_return (c : OptionCall W) : Prop :=
  match c with
  | option_andThen mapper => returns mapper
  | option_map mapper => returns mapper
  | option_mapOr _ mapper => returns mapper
  | option_mapOrElse default_ mapper => returns default_ /\ returns mapper
  | option_orElse other => returns other
  | _ => True
  end.

Definition result_callbacks_return (c : ResultCall W) : Prop :=
  match c with
  | result_andThen mapper => returns mapper
  | result_map mapper => returns mapper
  | result_mapErr mapper => returns mapper
  | result_mapOr _ mapper => returns mapper
  | result_mapOrElse default_ mapper => returns default_ /\ returns mapper
  | result_orElse other => returns other
  | _ => True
  end.

(** [e] is what some call of [f] threw. *)
Definition throws {A B : Type} (f : A -> Eff W B) (e : Value) : Prop :=
  exists a w w', f a w = (Throw e, w').

Definition option_callback_throws (c : OptionCall W) (e : Value) : Prop :=
  match c with
  | option_andThen mapper => throws mapper e
  | option_map mapper => throws mapper e
  | option_mapOr _ mapper => throws mapper e
  | option_mapOrElse default_ mapper => throws default_ e \/ throws mapper e
  | option_orElse other => throws other e
  | _ => False
  end.

Definition result_callback_throws (c : ResultCall W) (e : Value) : Prop :=
  match c with
  | result_andThen mapper => throws mapper e
  | result_map mapper => throws mapper e
  | result_mapErr mapper => throws mapper e
  | result_mapOr _ mapper => throws mapper e
  | result_mapOrElse default_ mapper => throws default_ e \/ throws mapper e
  | result_orElse other => throws other e
  | _ => False
  end.

End Calls.

(** ** Counting invocations

    [counted f] is [f] with a counter added to the world: every call of it
    adds one, before anything else happens. *)
Definition counted {W A B : Type} (f : A -> Eff W B) : A -> Eff (nat * W) B :=
  fun a nw =>
    let (r, w') := f a (snd nw) in (r, (S (fst nw), w')).

(** ** Helpers of the statements and proofs *)

(** An [Err] per pair of an error value and its snapshot. *)
Definition Errs (errors : list (Value * string)) : list Result :=
  List.map (fun es => Err (fst es) (snd es)) errors.

(** Tests on the settlement of a promise. *)
Definition rejected (p : Promise) : bool :=
  match p with Rejected _ => true | _ => false end.

Definition pending (p : Promise) : bool :=
  match p with Pending => true | _ => false end.

(** A payload put inside further [Some] and [Ok] wrappers, outermost first. *)
Inductive Wrapper : Type := InSome | InOk.

Fixpoint nest (wrappers : list Wrapper) (payload : Value) : Value :=
  match wrappers with
  | [] => payload
  | InSome :: inner => VOption (Some (nest inner payload))
  | InOk :: inner => VResult (Ok (nest inner payload))
  end.

(** A line of a stack trace holds no line break. *)
Fixpoint one_line (s : string) : bool :=
  match s with
  | EmptyString => true
  | String c rest => negb (Ascii.eqb c newline) && one_line rest
  end.

(** [value ?? fallback] *)
Definition nullish_coalesce (value fallback : Value) : Value :=
  match value with
  | VNull | VUndefined => fallback
  | _ => value
  end.

(** [r.andThen(s1).andThen(s2)...], for the steps in order. *)
Fixpoint Result_pipeline {W : Type} (steps : list (Value -> Eff W Result))
    (r : Result) : Eff W Result :=
  match steps with
  | [] => ret r
  | step :: more => r' <- BaseResult.andThen r step ;; Result_pipeline more r'
  end.

(** [o.andThen(s1).andThen(s2)...], for the steps in order. *)
Fixpoint Option_pipeline {W : Type} (steps : list (Value -> Eff W Option))
    (o : Option) : Eff W Option :=
  match steps with
  | [] => ret o
  | step :: more => o' <- BaseOption.andThen o step ;; Option_pipeline more o'
  end.

(** Inputs of the concrete runs. *)
Definition returning_mapper : Value -> Eff unit Value := fun v => ret v.

Definition throwing_mapper : Value -> Eff unit Value := fun v => throw v.

Definition show_nothing : Value -> string := fun _ => EmptyString.

Definition one : Value := VNumber 1.
Definition two : Value := VNumber 2.
Definition three : Value := VNumber 3.

Ltac unfold_methods :=
  cbv beta iota delta
    [invoke_option invoke_result fmap value_of lift bind ret
     BaseOption.andThen BaseOption.map BaseOption.mapOr BaseOption.mapOrElse
     BaseOption.orElse BaseOption.or BaseOption.unwrapOr BaseOption.toResult
     BaseOption.toString BaseOption.iterator
     BaseResult.andThen BaseResult.map BaseResult.mapErr BaseResult.mapOr
     BaseResult.mapOrElse BaseResult.orElse BaseResult.or BaseResult.else_
     BaseResult.unwrapOr BaseResult.toOption BaseResult.toString
     BaseResult.iterator
     NoneImpl.andThen NoneImpl.map NoneImpl.mapOr NoneImpl.mapOrElse
     NoneImpl.orElse
     SomeImpl.andThen SomeImpl.map SomeImpl.mapOr SomeImpl.mapOrElse
     SomeImpl.orElse
     ErrImpl.andThen ErrImpl.map ErrImpl.mapErr ErrImpl.mapOr
     ErrImpl.mapOrElse ErrImpl.orElse
     OkImpl.andThen OkImpl.map OkImpl.mapErr OkImpl.mapOr OkImpl.mapOrElse
     OkImpl.orElse] in *.

Ltac run_callback H a w :=
  let b := fresh "b" in
  let w' := fresh "w'" in
  let E := fresh "E" in
  destruct (H a w) as (b & w' & E); rewrite E; eauto.

Ltac blame_callback H :=
  match type of H with
  | context [match ?f ?a ?w with _ => _ end] =>
      let c := fresh "c" in
      let w0 := fresh "w0" in
      let E := fresh "E" in
      destruct (f a w) as [[c|c] w0] eqn:E;
      [discriminate H
      |inversion H; subst;
       first [solve [exists a, w; eauto]
             |solve [left; exists a, w; eauto]
             |solve [right; exists a, w; eauto]]]
  end.

(** * Properties *)

(** ** The aggregators *)

Lemma Option_all_loop_find (options : list Option) (someOption : list Value) :
  Option.all_loop someOption options =
  match find none options with
  | Datatypes.Some first => first
  | Datatypes.None => Some (VArray (someOption ++ List.map Option_val options))
  end.
Proof.
  revert someOption.
  induction options as [|option rest IH]; intros someOption; simpl.
  - now rewrite app_nil_r.
  - destruct option as [|v]; simpl; [reflexivity|].
    rewrite IH, <- app_assoc. reflexivity.
Qed.

Lemma Result_all_loop_find (results : list Result) (okResult : list Value) :
  Result.all_loop okResult results =
  match find err results with
  | Datatypes.Some first => first
  | Datatypes.None => Ok (VArray (okResult ++ List.map Result_val results))
  end.
Proof.
  revert okResult.
  induction results as [|result rest IH]; intros okResult; simpl.
  - now rewrite app_nil_r.
  - destruct result as [v|e st]; simpl; [|reflexivity].
    rewrite IH, <- app_assoc. reflexivity.
Qed.

Lemma Result_any_loop_find (stack : string) (results : list Result)
    (errResult : list Value) :
  Result.any_loop stack errResult results =
  match find ok results with
  | Datatypes.Some first => first
  | Datatypes.None =>
      new_Err stack (VArray (errResult ++ List.map Result_val results))
  end.
Proof.
  revert errResult.
  induction results as [|result rest IH]; intros errResult; simpl.
  - now rewrite app_nil_r.
  - destruct result as [v|e st]; simpl; [reflexivity|].
    rewrite IH, <- app_assoc. reflexivity.
Qed.

Lemma find_none_Somes (vals : list Value) (rest : list Option) :
  find none (List.map Some vals ++ rest) = find none rest.
Proof. induction vals as [|v vals IH]; simpl; auto. Qed.

Lemma find_err_Oks (vals : list Value) (rest : list Result) :
  find err (List.map Ok vals ++ rest) = find err rest.
Proof. induction vals as [|v vals IH]; simpl; auto. Qed.

Lemma find_ok_Errs (errors : list (Value * string)) (rest : list Result) :
  find ok (Errs errors ++ rest) = find ok rest.
Proof. induction errors as [|es errors IH]; simpl; auto. Qed.

Lemma Option_val_Somes (vals : list Value) :
  List.map Option_val (List.map Some vals) = vals.
Proof. induction vals as [|v vals IH]; simpl; congruence. Qed.

Lemma Result_val_Oks (vals : list Value) :
  List.map Result_val (List.map Ok vals) = vals.
Proof. induction vals as [|v vals IH]; simpl; congruence. Qed.

Lemma Result_val_Errs (errors : list (Value * string)) :
  List.map Result_val (Errs errors) = List.map fst errors.
Proof. induction errors as [|es errors IH]; simpl; congruence. Qed.

(** C1: [Option.any] gives back its first input as it is, be it [Some] or
    [None], whatever follows it; without inputs it gives [None]. *)
Theorem Option_any_first :
  (forall (first : Option) (others : list Option),
      Option.any (first :: others) = first) /\
  Option.any [] = None.
Proof.
  split; [|reflexivity].
  intros first others. unfold Option.any.
  destruct (some first); reflexivity.
Qed.

(** C2: [Result.any] gives back the leftmost [Ok] input itself; when no input
    is [Ok] it gives an [Err] of the array of all the inputs' error values in
    input order. *)
Theorem Result_any_first_ok (stack : string) :
  (forall results : list Result,
      Result.any stack results =
      match find ok results with
      | Datatypes.Some first => first
      | Datatypes.None =>
          new_Err stack (VArray (List.map Result_val results))
      end) /\
  (forall (errors : list (Value * string)) (v : Value) (rest : list Result),
      Result.any stack (Errs errors ++ Ok v :: rest) = Ok v) /\
  (forall errors : list (Value * string),
      Result.any stack (Errs errors) =
      Err (VArray (List.map fst errors)) (captureStack stack)).
Proof.
  assert (G : forall results : list Result,
             Result.any stack results =
             match find ok results with
             | Datatypes.Some first => first
             | Datatypes.None =>
                 new_Err stack (VArray (List.map Result_val results))
             end).
  { intros results. unfold Result.any. apply Result_any_loop_find. }
  split; [exact G|split].
  - intros errors v rest. rewrite G, find_ok_Errs. reflexivity.
  - intros errors. rewrite G.
    rewrite <- (app_nil_r (Errs errors)) at 1.
    rewrite find_ok_Errs. simpl. rewrite Result_val_Errs. reflexivity.
Qed.

(** C3: [Option.all] and [Result.all] give back the leftmost [None], resp. the
    leftmost [Err] input itself; when every input is [Some], resp. [Ok], they
    give [Some], resp. [Ok], of the array of the payloads in input order. *)
Theorem all_first_failure_or_values :
  (forall options : list Option,
      Option.all options =
      match find none options with
      | Datatypes.Some first => first
      | Datatypes.None => Some (VArray (List.map Option_val options))
      end) /\
  (forall (vals : list Value) (rest : list Option),
      Option.all (List.map Some vals ++ None :: rest) = None) /\
  (forall vals : list Value,
      Option.all (List.map Some vals) = Some (VArray vals)) /\
  (forall results : list Result,
      Result.all results =
      match find err results with
      | Datatypes.Some first => first
      | Datatypes.None => Ok (VArray (List.map Result_val results))
      end) /\
  (forall (vals : list Value) (e : Value) (st : string) (rest : list Result),
      Result.all (List.map Ok vals ++ Err e st :: rest) = Err e st) /\
  (forall vals : list Value,
      Result.all (List.map Ok vals) = Ok (VArray vals)).
Proof.
  assert (GO : forall options : list Option,
             Option.all options =
             match find none options with
             | Datatypes.Some first => first
             | Datatypes.None => Some (VArray (List.map Option_val options))
             end).
  { intros options. unfold Option.all. apply Option_all_loop_find. }
  assert (GR : forall results : list Result,
             Result.all results =
             match find err results with
             | Datatypes.Some first => first
             | Datatypes.None => Ok (VArray (List.map Result_val results))
             end).
  { intros results. unfold Result.all. apply Result_all_loop_find. }
  repeat split.
  - exact GO.
  - intros vals rest. rewrite GO, find_none_Somes. reflexivity.
  - intros vals. rewrite GO.
    rewrite <- (app_nil_r (List.map Some vals)) at 1.
    rewrite find_none_Somes. simpl. rewrite Option_val_Somes. reflexivity.
  - exact GR.
  - intros vals e st rest. rewrite GR, find_err_Oks. reflexivity.
  - intros vals. rewrite GR.
    rewrite <- (app_nil_r (List.map Ok vals)) at 1.
    rewrite find_err_Oks. simpl. rewrite Result_val_Oks. reflexivity.
Qed.

(** C10: without inputs the aggregators give the wrapper of the empty
    array: [Option.all()] is [Some([])], [Result.all()] is [Ok([])] and
    [Result.any()] is [Err([])]. *)
Theorem aggregators_of_nothing (stack : string) :
  Option.all [] = Some (VArray []) /\
  Result.all [] = Ok (VArray []) /\
  Result.any stack [] = Err (VArray []) (captureStack stack).
Proof. repeat split. Qed.

(** ** The exception boundary *)

(** C4: [Result.wrap] gives [Ok] of what [op] returns and [Err] of exactly
    what [op] throws; [Result.wrapAsync] gives a promise that fulfils with
    [Ok] of the value [op]'s promise fulfils with, and with [Err] of the
    reason when that promise rejects or when [op] itself throws; this promise
    is never rejected, [wrapAsync] itself never throws, and the promise stays
    unsettled only if [op]'s promise does. *)
Theorem wrap_converts_throw_to_Err (W : Type) (stack : string)
    (op : unit -> Eff W Value) (opAsync : unit -> Eff W Promise) (w : W) :
  Result.wrap stack op w =
    match op tt w with
    | (Normal v, w') => (Normal (Ok v), w')
    | (Throw e, w') => (Normal (Err e (captureStack stack)), w')
    end /\
  Result.wrapAsync stack opAsync w =
    match opAsync tt w with
    | (Normal Pending, w') => (Normal Pending, w')
    | (Normal (Fulfilled v), w') => (Normal (Fulfilled (VResult (Ok v))), w')
    | (Normal (Rejected e), w') =>
        (Normal (Fulfilled (VResult (Err e (captureStack stack)))), w')
    | (Throw e, w') =>
        (Normal (Fulfilled (VResult (Err e (captureStack stack)))), w')
    end /\
  exists (p : Promise) (w' : W),
    Result.wrapAsync stack opAsync w = (Normal p, w') /\
    rejected p = false /\
    pending p =
      match opAsync tt w with
      | (Normal q, _) => pending q
      | (Throw _, _) => false
      end.
Proof.
  unfold Result.wrap, Result.wrapAsync, try_catch, bind, ret.
  split; [|split].
  - destruct (op tt w) as [[v|e] w']; reflexivity.
  - destruct (opAsync tt w) as [[[|v|e]|e] w']; reflexivity.
  - destruct (opAsync tt w) as [[[|v|e]|e] w']; simpl;
      eexists; eexists; repeat split.
Qed.

(** ** The unsafe accessors *)

(** C5: [unwrap] and [expect] on [None] throw an error, and [expect]'s carries
    exactly [msg] as its message; [expect] on [Err(e)] throws an error whose
    message is [msg], then [" - Error: "], the stringified [e], a line break
    and the snapshot taken when the [Err] was built, and whose cause is [e];
    [unwrap] on [Err(e)] does the same with the fixed text
    ["Tried to unwrap Error: "] in front. *)
Theorem unsafe_accessors_throw (utils_toString : Value -> string)
    (msg : string) (e : Value) (st stack : string) :
  BaseOption.unwrap None =
    Throw (VError "Tried to unwrap None" Datatypes.None) /\
  BaseOption.expect None msg = Throw (VError msg Datatypes.None) /\
  BaseResult.expect utils_toString (Err e st) msg =
    Throw (VError (msg ++ " - Error: " ++ utils_toString e
                       ++ String newline st)
                  (Datatypes.Some e)) /\
  BaseResult.unwrap utils_toString (Err e st) =
    Throw (VError ("Tried to unwrap Error: " ++ utils_toString e
                       ++ String newline st)
                  (Datatypes.Some e)) /\
  BaseResult.expect utils_toString (new_Err stack e) msg =
    Throw (VError (msg ++ " - Error: " ++ utils_toString e
                       ++ String newline (captureStack stack))
                  (Datatypes.Some e)).
Proof. repeat split. Qed.

(** ** Conversions *)

(** C6: [Some(v).toResult(e).toOption()] is [Some(v)],
    [None.toResult(e).toOption()] is [None],
    [Ok(v).toOption().toResult(e2)] is [Ok(v)], and [Err(e).toOption()] is
    [None]. *)
Theorem toResult_toOption_roundtrip (stack : string) (v e e2 : Value)
    (st : string) :
  BaseResult.toOption (BaseOption.toResult stack (Some v) e) = Some v /\
  BaseResult.toOption (BaseOption.toResult stack None e) = None /\
  BaseOption.toResult stack (BaseResult.toOption (Ok v)) e2 = Ok v /\
  BaseResult.toOption (Err e st) = None.
Proof. repeat split. Qed.

(** ** Laziness *)

(** C8: [map] and [andThen] on [None] and on [Err] give back the receiver and
    do not call their argument; [orElse] on [Some(v)] gives back the receiver
    and does not call [otherFn]; [orElse] on [None] calls [otherFn] once and
    gives back what it gives; so [orElse] calls [otherFn] exactly when the
    receiver is [None]. *)
Theorem callbacks_called_only_when_needed (W : Type)
    (fn : Value -> Eff W Value) (mapper : Value -> Eff W Option)
    (mapperR : Value -> Eff W Result) (otherFn : unit -> Eff W Option)
    (v e : Value) (st : string) (n : nat) (w : W) :
  BaseOption.map None (counted fn) (n, w) = (Normal None, (n, w)) /\
  BaseResult.map (Err e st) (counted fn) (n, w) =
    (Normal (Err e st), (n, w)) /\
  BaseOption.andThen None (counted mapper) (n, w) = (Normal None, (n, w)) /\
  BaseResult.andThen (Err e st) (counted mapperR) (n, w) =
    (Normal (Err e st), (n, w)) /\
  BaseOption.orElse (Some v) (counted otherFn) (n, w) =
    (Normal (Some v), (n, w)) /\
  BaseOption.orElse None (counted otherFn) (n, w) =
    (fst (otherFn tt w), (S n, snd (otherFn tt w))) /\
  (forall this : Option,
      fst (snd (BaseOption.orElse this (counted otherFn) (n, w))) =
      if none this then S n else n).
Proof.
  repeat split.
  - unfold BaseOption.orElse, NoneImpl.orElse, counted. simpl.
    destruct (otherFn tt w); reflexivity.
  - intros [|v']; simpl; [|reflexivity].
    unfold NoneImpl.orElse, counted. simpl.
    destruct (otherFn tt w); reflexivity.
Qed.

(** ** Iteration *)

Lemma skipn_nth_error {A : Type} (l : list A) (i : nat) (x : A) :
  nth_error l i = Datatypes.Some x -> skipn i l = x :: skipn (S i) l.
Proof.
  revert i. induction l as [|y l IH]; intros [|i] H; simpl in *;
    try discriminate.
  - now inversion H.
  - now apply IH.
Qed.

(** Draining a sequence iterator gives what is left of the sequence, as soon
    as the fuel exceeds the number of elements left. *)
Lemma for_of_SeqIterator (items : list Value) (fuel i : nat) :
  List.length items - i < fuel ->
  for_of fuel (SeqIterator items i) = Datatypes.Some (skipn i items).
Proof.
  revert i. induction fuel as [|fuel IH]; intros i Hlt; [lia|].
  simpl. destruct (nth_error items i) as [x|] eqn:E; simpl.
  - assert (i < List.length items) by (apply nth_error_Some; congruence).
    rewrite IH by lia. now rewrite (skipn_nth_error _ _ _ E).
  - apply nth_error_None in E. now rewrite skipn_all2.
Qed.

Lemma for_of_EmptyIterator (fuel : nat) :
  for_of (S fuel) EmptyIterator = Datatypes.Some [].
Proof. reflexivity. Qed.

(** Every iterator of the model runs out. *)
Lemma for_of_terminates (it : Iterator) :
  exists (fuel : nat) (elements : list Value),
    for_of fuel it = Datatypes.Some elements.
Proof.
  destruct it as [|items i].
  - exists 1, []. reflexivity.
  - exists (S (List.length items - i)), (skipn i items).
    apply for_of_SeqIterator. lia.
Qed.

(** C9: the iterator of [Some(v)] and of [Ok(v)] is [v]'s own iterator when
    [v] is iterable, so it yields [v]'s elements (for an array, its items in
    order), and yields nothing when [v] is not iterable, as for [Ok(5)]; the
    iterator of [None] and of an [Err] yields nothing. *)
Theorem iterator_of_payload :
  (forall v : Value,
      match get_iterator v with
      | Datatypes.Some own =>
          BaseOption.iterator (Some v) = own /\
          BaseResult.iterator (Ok v) = own
      | Datatypes.None =>
          (forall fuel : nat,
              for_of (S fuel) (BaseOption.iterator (Some v)) =
              Datatypes.Some []) /\
          (forall fuel : nat,
              for_of (S fuel) (BaseResult.iterator (Ok v)) =
              Datatypes.Some [])
      end) /\
  (forall items : list Value,
      for_of (S (List.length items)) (BaseOption.iterator (Some (VArray items))) =
        Datatypes.Some items /\
      for_of (S (List.length items)) (BaseResult.iterator (Ok (VArray items))) =
        Datatypes.Some items) /\
  (forall fuel : nat,
      for_of (S fuel) (BaseResult.iterator (Ok (VNumber 5))) =
      Datatypes.Some []) /\
  (forall fuel : nat,
      for_of (S fuel) (BaseOption.iterator None) = Datatypes.Some []) /\
  (forall (e : Value) (st : string) (fuel : nat),
      for_of (S fuel) (BaseResult.iterator (Err e st)) = Datatypes.Some []) /\
  (forall (o : Option) (r : Result),
      (exists (fuel : nat) (elements : list Value),
          for_of fuel (BaseOption.iterator o) = Datatypes.Some elements) /\
      (exists (fuel : nat) (elements : list Value),
          for_of fuel (BaseResult.iterator r) = Datatypes.Some elements)).
Proof.
  split; [|split; [|repeat split]].
  - intros v. unfold BaseOption.iterator, BaseResult.iterator.
    destruct v; simpl; repeat split.
  - intros items. unfold BaseOption.iterator, BaseResult.iterator.
    cbn [Option_iterator Result_iterator get_iterator].
    split; rewrite for_of_SeqIterator by lia; reflexivity.
  - apply for_of_terminates.
  - apply for_of_terminates.
Qed.

(** ** Totality *)

(** C7: an operation of [Option] or [Result] other than [unwrap], [expect],
    [unwrapErr] and [expectErr] returns on either variant whenever the
    functions it was given return; and whatever such an operation throws was
    thrown by one of the functions it was given. *)
Theorem safe_operations_return (W : Type) (utils_toString : Value -> string)
    (stack : string) :
  (forall (this : Option) (c : OptionCall W) (w : W),
      unsafe_option c = false ->
      option_callbacks_return c ->
      exists (r : Returned) (w' : W),
        invoke_option utils_toString stack this c w = (Normal r, w')) /\
  (forall (this : Result) (c : ResultCall W) (w : W),
      unsafe_result c = false ->
      result_callbacks_return c ->
      exists (r : Returned) (w' : W),
        invoke_result utils_toString stack this c w = (Normal r, w')) /\
  (forall (this : Option) (c : OptionCall W) (w w' : W) (e : Value),
      unsafe_option c = false ->
      invoke_option utils_toString stack this c w = (Throw e, w') ->
      option_callback_throws c e) /\
  (forall (this : Result) (c : ResultCall W) (w w' : W) (e : Value),
      unsafe_result c = false ->
      invoke_result utils_toString stack this c w = (Throw e, w') ->
      result_callback_throws c e).
Proof.
  split; [|split; [|split]].
  - intros this c w Hsafe Hret.
    destruct c; try discriminate Hsafe; destruct this as [|x];
      unfold_methods; try (eexists; eexists; reflexivity);
      simpl in Hret.
    + run_callback Hret x w.
    + run_callback Hret x w.
    + run_callback Hret x w.
    + destruct Hret as [Hd _]. run_callback Hd tt w.
    + destruct Hret as [_ Hm]. run_callback Hm x w.
    + run_callback Hret tt w.
  - intros this c w Hsafe Hret.
    destruct c; try discriminate Hsafe; destruct this as [x|x st];
      unfold_methods; try (eexists; eexists; reflexivity);
      simpl in Hret.
    + run_callback Hret x w.
    + run_callback Hret x w.
    + run_callback Hret x w.
    + run_callback Hret x w.
    + destruct Hret as [_ Hm]. run_callback Hm x w.
    + destruct Hret as [Hd _]. run_callback Hd tt w.
    + run_callback Hret tt w.
  - intros this c w w' e Hsafe Hthrow.
    destruct c; try discriminate Hsafe; destruct this as [|x];
      unfold_methods; try discriminate Hthrow; simpl;
      blame_callback Hthrow.
  - intros this c w w' e Hsafe Hthrow.
    destruct c; try discriminate Hsafe; destruct this as [x|x st];
      unfold_methods; try discriminate Hthrow; simpl;
      blame_callback Hthrow.
Qed.

(** The four accessors left out above do throw, each on one variant only. *)
Lemma unsafe_accessors_by_variant (utils_toString : Value -> string)
    (msg : string) (v : Value) (st : string) :
  BaseOption.unwrap (Some v) = Normal v /\
  BaseOption.expect (Some v) msg = Normal v /\
  BaseResult.unwrap utils_toString (Ok v) = Normal v /\
  BaseResult.expect utils_toString (Ok v) msg = Normal v /\
  BaseResult.unwrapErr utils_toString (Err v st) = Normal v /\
  BaseResult.expectErr (Err v st) msg = Normal v /\
  BaseResult.expectErr (Ok v) msg = Throw (VError msg Datatypes.None) /\
  BaseResult.unwrapErr utils_toString (Ok v) =
    Throw (VError ("Tried to unwrap Ok: " ++ utils_toString v)
                  (Datatypes.Some v)).
Proof. repeat split. Qed.

(** [safe_operations_return] at [Some(5).map], [Err(5).mapErr] and
    [Ok(5).map], with a function that returns and one that throws. *)
Lemma safe_operations_return_witness :
  (unsafe_option (option_map returning_mapper) = false /\
   option_callbacks_return (option_map returning_mapper) /\
   exists (r : Returned) (w' : unit),
     invoke_option show_nothing EmptyString (Some (VNumber 5))
       (option_map returning_mapper) tt = (Normal r, w')) /\
  (unsafe_result (result_mapErr returning_mapper) = false /\
   result_callbacks_return (result_mapErr returning_mapper) /\
   exists (r : Returned) (w' : unit),
     invoke_result show_nothing EmptyString (Err (VNumber 5) EmptyString)
       (result_mapErr returning_mapper) tt = (Normal r, w')) /\
  (unsafe_option (option_map throwing_mapper) = false /\
   invoke_option show_nothing EmptyString (Some (VNumber 5))
     (option_map throwing_mapper) tt = (Throw (VNumber 5), tt) /\
   option_callback_throws (option_map throwing_mapper) (VNumber 5)) /\
  (unsafe_result (result_map throwing_mapper) = false /\
   invoke_result show_nothing EmptyString (Ok (VNumber 5))
     (result_map throwing_mapper) tt = (Throw (VNumber 5), tt) /\
   result_callback_throws (result_map throwing_mapper) (VNumber 5)).
Proof.
  assert (R : returns returning_mapper).
  { intros a w. exists a, w. reflexivity. }
  destruct (safe_operations_return unit show_nothing EmptyString)
    as (HO & HR & TO & TR).
  split; [|split; [|split]].
  - split; [reflexivity|]. split; [exact R|].
    apply HO; [reflexivity | exact R].
  - split; [reflexivity|]. split; [exact R|].
    apply HR; [reflexivity | exact R].
  - split; [reflexivity|]. split; [reflexivity|].
    apply (TO (Some (VNumber 5)) (option_map throwing_mapper) tt tt);
      reflexivity.
  - split; [reflexivity|]. split; [reflexivity|].
    apply (TR (Ok (VNumber 5)) (result_map throwing_mapper) tt tt);
      reflexivity.
Defined.

(** ** Runs on the examples of the documentation *)

Example Option_all_Somes :
  Option.all [Some one; Some two; Some three] =
  Some (VArray [one; two; three]).
Proof. reflexivity. Qed.

Example Option_all_with_None :
  Option.all [Some one; None; Some three] = None.
Proof. reflexivity. Qed.

Example Option_any_stops_at_None :
  Option.any [None; Some one] = None.
Proof. reflexivity. Qed.

Example Result_any_finds_Ok :
  Result.any EmptyString
    [Err (VString "a") EmptyString; Err (VString "b") EmptyString; Ok (VNumber 5);
     Err (VString "c") EmptyString] = Ok (VNumber 5).
Proof. reflexivity. Qed.

Example Result_wrap_throw :
  Result.wrap EmptyString (fun _ => throw (VString "x")) tt =
  (Normal (Err (VString "x") EmptyString), tt).
Proof. reflexivity. Qed.

Example Result_wrap_return :
  Result.wrap EmptyString (fun _ => ret (VNumber 42)) tt = (Normal (Ok (VNumber 42)), tt).
Proof. reflexivity. Qed.

Example Result_wrapAsync_reject :
  Result.wrapAsync EmptyString (fun _ => ret (Rejected (VString "y"))) tt =
  (Normal (Fulfilled (VResult (Err (VString "y") EmptyString))), tt).
Proof. reflexivity. Qed.

Example iterate_Ok_array :
  for_of 4 (BaseResult.iterator (Ok (VArray [one; two; three]))) =
  Datatypes.Some [one; two; three].
Proof. reflexivity. Qed.

Example iterate_Some_string :
  for_of 3 (BaseOption.iterator (Some (VString "ab"))) =
  Datatypes.Some [VString "a"; VString "b"].
Proof. reflexivity. Qed.

Example iterate_nested :
  for_of 3 (BaseOption.iterator (Some (VResult (Ok (VArray [one; two]))))) =
  Datatypes.Some [one; two].
Proof. reflexivity. Qed.

Example captureStack_drops_constructor_frames :
  captureStack
    ("Error" ++ String newline "    at new ErrImpl (result.js:1:1)"
       ++ String newline "    at ErrImpl (result.js:2:2)"
       ++ String newline "    at caller (app.js:3:3)")
  = "    at caller (app.js:3:3)".
Proof. reflexivity. Qed.

Example chain_short_circuits :
  (r1 <- BaseResult.andThen (Ok one)
           (counted (fun _ : Value => ret (Ok two))) ;;
   r2 <- BaseResult.andThen r1
           (counted (fun _ : Value => ret (Err (VString "boom") EmptyString))) ;;
   BaseResult.andThen r2 (counted (fun _ : Value => ret (Ok three))))
    (0, tt)
  = (Normal (Err (VString "boom") EmptyString), (2, tt)).
Proof. reflexivity. Qed.

(** * Further properties of the combinators *)

(** ** Chaining *)

Ltac run_both f a w :=
  let c := fresh "c" in
  let w' := fresh "w'" in
  destruct (f a w) as [[c|c] w']; simpl; try reflexivity.

(** X1: [andThen] of [Option] obeys the laws of a bind whose unit is [Some]:
    [Some(v).andThen(f)] is [f(v)], [o.andThen(Some)] is [o], and chaining two
    steps one after the other is chaining the step that chains them. *)
Theorem Option_andThen_laws (W : Type) (o : Option) (v : Value)
    (f g : Value -> Eff W Option) (w : W) :
  BaseOption.andThen (Some v) f w = f v w /\
  BaseOption.andThen o (fun x => ret (Some x)) w = (Normal o, w) /\
  (o' <- BaseOption.andThen o f ;; BaseOption.andThen o' g) w =
    BaseOption.andThen o (fun x => o' <- f x ;; BaseOption.andThen o' g) w.
Proof.
  repeat split; destruct o as [|x]; reflexivity.
Qed.

(** X2: [andThen] of [Result] obeys the same laws with [Ok] as unit, and an
    [Err] goes through a whole chain as the same object. *)
Theorem Result_andThen_laws (W : Type) (r : Result) (v e : Value) (st : string)
    (f g : Value -> Eff W Result) (w : W) :
  BaseResult.andThen (Ok v) f w = f v w /\
  BaseResult.andThen r (fun x => ret (Ok x)) w = (Normal r, w) /\
  (r' <- BaseResult.andThen r f ;; BaseResult.andThen r' g) w =
    BaseResult.andThen r (fun x => r' <- f x ;; BaseResult.andThen r' g) w /\
  (r' <- BaseResult.andThen (Err e st) f ;; BaseResult.andThen r' g) w =
    (Normal (Err e st), w).
Proof.
  repeat split; destruct r as [x|x sx]; reflexivity.
Qed.

(** X3: [map] obeys the functor laws on both pairs: mapping the identity
    gives back an equal value, mapping [f] and then [g] is mapping [f] followed
    by [g] in one go, and [map(f)] is [andThen] of [f] followed by the
    wrapper. *)
Theorem map_laws (W : Type) (o : Option) (r : Result)
    (f g : Value -> Eff W Value) (w : W) :
  BaseOption.map o (fun x => ret x) w = (Normal o, w) /\
  BaseResult.map r (fun x => ret x) w = (Normal r, w) /\
  (o' <- BaseOption.map o f ;; BaseOption.map o' g) w =
    BaseOption.map o (fun x => y <- f x ;; g y) w /\
  (r' <- BaseResult.map r f ;; BaseResult.map r' g) w =
    BaseResult.map r (fun x => y <- f x ;; g y) w /\
  BaseOption.map o f w =
    BaseOption.andThen o (fun x => y <- f x ;; ret (Some y)) w /\
  BaseResult.map r f w =
    BaseResult.andThen r (fun x => y <- f x ;; ret (Ok y)) w.
Proof.
  repeat split; destruct o as [|x]; destruct r as [z|z sz];
    try reflexivity;
    cbv beta iota delta
      [BaseOption.map BaseResult.map SomeImpl.map OkImpl.map bind ret].
  - run_both f x w.
  - run_both f x w.
  - run_both f z w.
  - run_both f z w.
Qed.

(** X4: [mapErr] leaves an [Ok] as it is without calling its function; on an
    [Err] it builds a new [Err], so two [mapErr] in a row equal one with the
    two functions in a row, and the snapshot of the result is the one taken at
    the last [mapErr], whatever the receiver's was. *)
Theorem mapErr_laws (W : Type) (v e : Value) (st stack1 stack2 : string)
    (f g : Value -> Eff W Value) (n : nat) (w : W) :
  BaseResult.mapErr stack1 (Ok v) (counted f) (n, w) =
    (Normal (Ok v), (n, w)) /\
  (r' <- BaseResult.mapErr stack1 (Err e st) f ;;
   BaseResult.mapErr stack2 r' g) w =
    BaseResult.mapErr stack2 (Err e st) (fun x => y <- f x ;; g y) w /\
  BaseResult.mapErr stack1 (Err e st) (fun x => ret x) w =
    (Normal (Err e (captureStack stack1)), w).
Proof.
  repeat split.
  cbv beta iota delta [BaseResult.mapErr ErrImpl.mapErr bind ret new_Err].
  run_both f e w.
Qed.

(** X5: the eager members are their lazy siblings at a constant function:
    [mapOr(d, f)] is [mapOrElse(() => d, f)], [or(other)] is
    [orElse(() => other)], [unwrapOr(d)] is [mapOr(d, x => x)], and [else] is
    [unwrapOr]. *)
Theorem eager_members_from_lazy (W : Type) (o other : Option)
    (r otherR : Result) (d : Value) (f : Value -> Eff W Value) (w : W) :
  BaseOption.mapOr o d f w = BaseOption.mapOrElse o (fun _ => ret d) f w /\
  BaseResult.mapOr r d f w = BaseResult.mapOrElse r (fun _ => ret d) f w /\
  (Normal (BaseOption.or o other), w) =
    BaseOption.orElse o (fun _ => ret other) w /\
  (Normal (BaseResult.or r otherR), w) =
    BaseResult.orElse r (fun _ => ret otherR) w /\
  (Normal (BaseOption.unwrapOr o d), w) =
    BaseOption.mapOr o d (fun x => ret x) w /\
  (Normal (BaseResult.unwrapOr r d), w) =
    BaseResult.mapOr r d (fun x => ret x) w /\
  BaseResult.else_ r d = BaseResult.unwrapOr r d.
Proof.
  repeat split; destruct o as [|x]; destruct r as [z|z sz]; reflexivity.
Qed.

(** X6: [mapOrElse] calls exactly one of its two functions, exactly once: the
    mapper on [Some] and [Ok], the default on [None] and [Err]; [mapOr] calls
    its mapper once on [Some] and [Ok] and not at all otherwise. *)
Theorem mapOrElse_calls_one_function (W : Type) (o : Option) (r : Result)
    (d : Value) (default_ : unit -> Eff W Value) (mapper : Value -> Eff W Value)
    (n : nat) (w : W) :
  BaseOption.mapOrElse o (counted default_) (counted mapper) (n, w) =
    (if some o
     then (fst (mapper (Option_val o) w), (S n, snd (mapper (Option_val o) w)))
     else (fst (default_ tt w), (S n, snd (default_ tt w)))) /\
  BaseResult.mapOrElse r (counted default_) (counted mapper) (n, w) =
    (if ok r
     then (fst (mapper (Result_val r) w), (S n, snd (mapper (Result_val r) w)))
     else (fst (default_ tt w), (S n, snd (default_ tt w)))) /\
  fst (snd (BaseOption.mapOr o d (counted mapper) (n, w))) =
    (if some o then S n else n) /\
  fst (snd (BaseResult.mapOr r d (counted mapper) (n, w))) =
    (if ok r then S n else n).
Proof.
  repeat split; destruct o as [|x]; destruct r as [z|z sz]; simpl;
    try reflexivity;
    cbv beta iota delta
      [NoneImpl.mapOrElse SomeImpl.mapOrElse ErrImpl.mapOrElse
       OkImpl.mapOrElse SomeImpl.mapOr OkImpl.mapOr counted fst snd];
    try (destruct (default_ tt w); reflexivity);
    try (destruct (mapper x w); reflexivity);
    try (destruct (mapper z w); reflexivity).
Qed.

(** ** Fallbacks *)

(** X7: [or] is associative on both pairs, [None] is neutral for it on both
    sides, a [Some] or [Ok] receiver wins over any argument, and an [Err]
    receiver always gives way to the argument, so of two [Err] the second is
    kept. *)
Theorem or_is_first_success (a b c : Option) (ra rb rc : Result)
    (v e : Value) (st : string) :
  BaseOption.or (BaseOption.or a b) c = BaseOption.or a (BaseOption.or b c) /\
  BaseOption.or None a = a /\
  BaseOption.or a None = a /\
  BaseOption.or (Some v) a = Some v /\
  BaseResult.or (BaseResult.or ra rb) rc =
    BaseResult.or ra (BaseResult.or rb rc) /\
  BaseResult.or (Ok v) ra = Ok v /\
  BaseResult.or (Err e st) ra = ra.
Proof.
  repeat split; destruct a; destruct ra; reflexivity.
Qed.

(** X8: when some input is [Ok], [Result.any] is the chain of [or] over the
    inputs, whatever stands at the end of the chain. *)
Theorem Result_any_is_or_chain (stack : string) (results : list Result)
    (last : Result) :
  existsb ok results = true ->
  Result.any stack results = fold_right BaseResult.or last results.
Proof.
  intros Hok. unfold Result.any. rewrite Result_any_loop_find.
  assert (H : exists first : Result,
             find ok results = Datatypes.Some first /\
             fold_right BaseResult.or last results = first).
  { induction results as [|r rest IH]; simpl in *; [discriminate|].
    destruct r as [v|e st]; simpl in *.
    - exists (Ok v). split; reflexivity.
    - unfold ErrImpl.or. now apply IH. }
  destruct H as (first & Hfind & Hfold). now rewrite Hfind, Hfold.
Qed.

(** [Result_any_is_or_chain] at [Err("a"), Ok(1), Ok(2)]. *)
Lemma Result_any_is_or_chain_witness :
  existsb ok [Err (VString "a") EmptyString; Ok one; Ok two] = true /\
  Result.any EmptyString [Err (VString "a") EmptyString; Ok one; Ok two] =
  fold_right BaseResult.or (Err VUndefined EmptyString)
    [Err (VString "a") EmptyString; Ok one; Ok two].
Proof.
  split; [reflexivity|].
  apply (Result_any_is_or_chain EmptyString
           [Err (VString "a") EmptyString; Ok one; Ok two]
           (Err VUndefined EmptyString)).
  reflexivity.
Defined.

(** X9: however long a chain of [andThen] is, once its receiver is an [Err]
    (resp. [None]) no step of it is called and the chain gives back that very
    [Err] (resp. [None]). *)
Theorem pipeline_short_circuits (W : Type) (e : Value) (st : string)
    (n : nat) (w : W) :
  (forall steps : list (Value -> Eff W Result),
      Result_pipeline (List.map counted steps) (Err e st) (n, w) =
      (Normal (Err e st), (n, w))) /\
  (forall steps : list (Value -> Eff W Option),
      Option_pipeline (List.map counted steps) None (n, w) =
      (Normal None, (n, w))).
Proof.
  split; intros steps; induction steps as [|step more IH]; simpl;
    try reflexivity; exact IH.
Qed.

(** ** More on the aggregators *)

Lemma find_none_shape (options : list Option) :
  find none options = Datatypes.None ->
  options = List.map Some (List.map Option_val options).
Proof.
  induction options as [|[|v] rest IH]; simpl; intros H;
    [reflexivity | discriminate | f_equal; auto].
Qed.

Lemma find_err_shape (results : list Result) :
  find err results = Datatypes.None ->
  results = List.map Ok (List.map Result_val results).
Proof.
  induction results as [|[v|e st] rest IH]; simpl; intros H;
    [reflexivity | f_equal; auto | discriminate].
Qed.

Lemma find_ok_shape (results : list Result) :
  find ok results = Datatypes.None -> forallb err results = true.
Proof.
  induction results as [|[v|e st] rest IH]; simpl; intros H;
    [reflexivity | discriminate | auto].
Qed.

Lemma some_unless_none (options : list Option) (y : Value) :
  some match find none options with
       | Datatypes.Some first => first
       | Datatypes.None => Some y
       end = forallb some options.
Proof. induction options as [|[|v] rest IH]; simpl; auto. Qed.

Lemma ok_unless_err (results : list Result) (y : Value) :
  ok match find err results with
     | Datatypes.Some first => first
     | Datatypes.None => Ok y
     end = forallb ok results.
Proof. induction results as [|[v|e st] rest IH]; simpl; auto. Qed.

Lemma ok_if_found (results : list Result) (y : Result) :
  ok y = false ->
  ok match find ok results with
     | Datatypes.Some first => first
     | Datatypes.None => y
     end = existsb ok results.
Proof. induction results as [|[v|e st] rest IH]; simpl; auto. Qed.

(** X10: [Option.all] gives a [Some] exactly when every input is [Some], and
    [Result.all] an [Ok] exactly when every input is [Ok]; the payload of that
    result is then an array with one element per input, from which the inputs
    are recovered by wrapping each element again. *)
Theorem all_success_inverts (options : list Option) (results : list Result)
    (x : Value) :
  some (Option.all options) = forallb some options /\
  ok (Result.all results) = forallb ok results /\
  (Option.all options = Some x ->
   x = VArray (List.map Option_val options) /\
   options = List.map Some (List.map Option_val options)) /\
  (Result.all results = Ok x ->
   x = VArray (List.map Result_val results) /\
   results = List.map Ok (List.map Result_val results)).
Proof.
  unfold Option.all, Result.all.
  rewrite Option_all_loop_find, Result_all_loop_find. simpl.
  repeat split.
  - apply some_unless_none.
  - apply ok_unless_err.
  - destruct (find none options) as [first|] eqn:E.
    + apply find_some in E. destruct E as [_ E]. subst first. discriminate.
    + congruence.
  - destruct (find none options) as [first|] eqn:E.
    + apply find_some in E. destruct E as [_ E]. subst first. discriminate.
    + now apply find_none_shape.
  - destruct (find err results) as [first|] eqn:E.
    + apply find_some in E. destruct E as [_ E]. subst first. discriminate.
    + congruence.
  - destruct (find err results) as [first|] eqn:E.
    + apply find_some in E. destruct E as [_ E]. subst first. discriminate.
    + now apply find_err_shape.
Qed.

(** [all_success_inverts] at [Some(1), Some(2)] and [Ok(1), Ok(2)]. *)
Lemma all_success_inverts_witness :
  Option.all [Some one; Some two] = Some (VArray [one; two]) /\
  Result.all [Ok one; Ok two] = Ok (VArray [one; two]) /\
  [Some one; Some two] =
    List.map Some (List.map Option_val [Some one; Some two]) /\
  [Ok one; Ok two] = List.map Ok (List.map Result_val [Ok one; Ok two]).
Proof.
  destruct (all_success_inverts [Some one; Some two] [Ok one; Ok two]
              (VArray [one; two])) as (_ & _ & HO & HR).
  split; [reflexivity|]. split; [reflexivity|].
  split; [apply HO | apply HR]; reflexivity.
Defined.

(** X11: [Result.any] gives an [Ok] exactly when some input is [Ok]; when it
    gives an [Err], every input was an [Err], the error is an array with one
    element per input, and the snapshot is the one of this call, not one of
    the inputs'. *)
Theorem Result_any_failure_inverts (stack : string) (results : list Result)
    (x : Value) (st : string) :
  ok (Result.any stack results) = existsb ok results /\
  (Result.any stack results = Err x st ->
   forallb err results = true /\
   x = VArray (List.map Result_val results) /\
   st = captureStack stack).
Proof.
  unfold Result.any. rewrite Result_any_loop_find. simpl. split.
  - now apply ok_if_found.
  - destruct (find ok results) as [first|] eqn:E.
    + apply find_some in E. destruct E as [_ E]. intros H. subst first.
      discriminate.
    + unfold new_Err. intros H. inversion H.
      split; [now apply find_ok_shape | split; reflexivity].
Qed.

(** [Result_any_failure_inverts] at [Err("a"), Err("b")]. *)
Lemma Result_any_failure_inverts_witness :
  Result.any EmptyString
    [Err (VString "a") "s1"; Err (VString "b") "s2"] =
    Err (VArray [VString "a"; VString "b"]) EmptyString /\
  forallb err [Err (VString "a") "s1"; Err (VString "b") "s2"] = true.
Proof.
  destruct (Result_any_failure_inverts EmptyString
              [Err (VString "a") "s1"; Err (VString "b") "s2"]
              (VArray [VString "a"; VString "b"]) EmptyString) as [_ H].
  split; [reflexivity|]. apply H. reflexivity.
Defined.





(** ** More on the exception boundary *)

(** X14: [unwrap] undoes [wrap] on a return and not on a throw: unwrapping
    [wrap(op)] returns what [op] returned, and when [op] threw [e] it throws a
    new error that carries [e] as its cause; the other way round, wrapping
    [r.unwrap()] gives [Ok(v)] back for [r = Ok(v)], and for [r = Err(e)] an
    [Err] of that new error, not [r]. *)
Theorem wrap_then_unwrap (W : Type) (utils_toString : Value -> string)
    (stack : string) (op : unit -> Eff W Value) (r : Result) (w : W) :
  (r' <- Result.wrap stack op ;; lift (BaseResult.unwrap utils_toString r')) w =
    match op tt w with
    | (Normal v, w') => (Normal v, w')
    | (Throw e, w') =>
        (Throw (VError ("Tried to unwrap Error: " ++ utils_toString e
                           ++ String newline (captureStack stack))
                       (Datatypes.Some e)), w')
    end /\
  Result.wrap stack (fun _ => lift (BaseResult.unwrap utils_toString r)) w =
    (Normal
       match r with
       | Ok v => Ok v
       | Err e st =>
           Err (VError ("Tried to unwrap Error: " ++ utils_toString e
                           ++ String newline st)
                       (Datatypes.Some e))
               (captureStack stack)
       end, w).
Proof.
  split.
  - unfold Result.wrap, try_catch, bind, ret, lift.
    destruct (op tt w) as [[v|e] w']; reflexivity.
  - destruct r as [v|e st]; reflexivity.
Qed.

(** X15: what [wrap] and [wrapAsync] give never throws or rejects again, so
    wrapping a wrapped operation gives no [Err]: [wrap] of [wrap(op)] is [Ok]
    of the inner [Result], whatever [op] does, and [wrapAsync] of
    [wrapAsync(op)] is unsettled or fulfils with [Ok] of the inner [Result]. *)
Theorem wrap_twice_is_Ok (W : Type) (stack1 stack2 : string)
    (op : unit -> Eff W Value) (opAsync : unit -> Eff W Promise) (w : W) :
  (exists (r : Result) (w' : W),
      Result.wrap stack1 op w = (Normal r, w') /\
      Result.wrap stack2
        (fun _ => r' <- Result.wrap stack1 op ;; ret (VResult r')) w =
      (Normal (Ok (VResult r)), w')) /\
  (exists (p : Promise) (w' : W),
      Result.wrapAsync stack1 opAsync w = (Normal p, w') /\
      rejected p = false /\
      Result.wrapAsync stack2 (fun _ => Result.wrapAsync stack1 opAsync) w =
      (Normal match p with
              | Pending => Pending
              | Fulfilled inner => Fulfilled (VResult (Ok inner))
              | Rejected e => Rejected e
              end, w')).
Proof.
  split.
  - unfold Result.wrap, try_catch, bind, ret.
    destruct (op tt w) as [[v|e] w']; eexists; eexists; split; reflexivity.
  - unfold Result.wrapAsync, try_catch, bind, ret.
    destruct (opAsync tt w) as [[[|v|e]|e] w']; simpl;
      eexists; eexists; (split; [reflexivity|]); split; reflexivity.
Qed.

(** ** [Option.of] *)

(** X16: [Option.of(v).unwrapOr(d)] is [v ?? d]; [Option.of] does not
    flatten, an Option given to it (even [None]) comes back inside a [Some];
    what it gives is an Option for [isOption]; and passing its outcome through
    [unwrapOr(null)] and [Option.of] again changes nothing. *)
Theorem Option_of_is_nullish_test (v d : Value) (o : Option) :
  BaseOption.unwrapOr (Option.of_ v) d = nullish_coalesce v d /\
  Option.of_ (VOption o) = Some (VOption o) /\
  Option.isOption (VOption (Option.of_ v)) = true /\
  Option.of_ (BaseOption.unwrapOr (Option.of_ v) VNull) = Option.of_ v.
Proof. repeat split; destruct v; reflexivity. Qed.

(** ** The snapshot of [Err] *)

Lemma split_lines_one_line (s : string) :
  one_line s = true -> split_lines s = [s].
Proof.
  induction s as [|c rest IH]; simpl; [reflexivity|].
  intros H. apply andb_prop in H. destruct H as [Hc Hrest].
  apply negb_true_iff in Hc. rewrite Hc, (IH Hrest). reflexivity.
Qed.

Lemma split_lines_first_line (line rest : string) :
  one_line line = true ->
  split_lines (line ++ String newline rest) = line :: split_lines rest.
Proof.
  induction line as [|c line IH]; simpl; [reflexivity|].
  intros H. apply andb_prop in H. destruct H as [Hc Hline].
  apply negb_true_iff in Hc. rewrite Hc, (IH Hline). reflexivity.
Qed.

(** Splitting what [join] made of lines gives the lines back. *)
Lemma split_lines_join_lines (line : string) (lines : list string) :
  forallb one_line (line :: lines) = true ->
  split_lines (join_lines (line :: lines)) = line :: lines.
Proof.
  revert line. induction lines as [|line2 lines IH]; intros line H.
  - simpl in *. apply split_lines_one_line.
    now rewrite andb_true_r in H.
  - change (forallb one_line (line :: line2 :: lines))
      with (one_line line && forallb one_line (line2 :: lines)) in H.
    apply andb_prop in H. destruct H as [Hline Hrest].
    change (join_lines (line :: line2 :: lines))
      with (line ++ String newline (join_lines (line2 :: lines))).
    rewrite (split_lines_first_line _ _ Hline), (IH _ Hrest). reflexivity.
Qed.

(** X17: for a stack text of at least two lines, the snapshot an [Err] keeps
    is that text without its first two lines, and without the line after
    them too when that one names [ErrImpl]; only one such line goes, and a text
    of just two lines leaves the empty snapshot. *)
Theorem captureStack_of_lines (header frame : string) (frames : list string) :
  one_line header = true ->
  one_line frame = true ->
  forallb one_line frames = true ->
  captureStack (join_lines (header :: frame :: frames)) =
  join_lines
    match frames with
    | first :: others => if includes "ErrImpl" first then others else frames
    | [] => []
    end.
Proof.
  intros Hh Hf Hfs. unfold captureStack.
  rewrite split_lines_join_lines.
  - cbn [skipn]. destruct frames; reflexivity.
  - simpl. now rewrite Hh, Hf, Hfs.
Qed.

(** [captureStack_of_lines] at a stack with two [ErrImpl] frames on top. *)
Lemma captureStack_of_lines_witness :
  one_line "Error" = true /\
  one_line "    at new ErrImpl (result.js:1:1)" = true /\
  forallb one_line ["    at ErrImpl (result.js:2:2)";
                    "    at ErrImpl.mapErr (result.js:3:3)";
                    "    at caller (app.js:4:4)"] = true /\
  captureStack
    (join_lines ["Error"; "    at new ErrImpl (result.js:1:1)";
                 "    at ErrImpl (result.js:2:2)";
                 "    at ErrImpl.mapErr (result.js:3:3)";
                 "    at caller (app.js:4:4)"]) =
  join_lines ["    at ErrImpl.mapErr (result.js:3:3)";
              "    at caller (app.js:4:4)"].
Proof.
  split; [reflexivity|]. split; [reflexivity|]. split; [reflexivity|].
  apply (captureStack_of_lines "Error" "    at new ErrImpl (result.js:1:1)"
           ["    at ErrImpl (result.js:2:2)";
            "    at ErrImpl.mapErr (result.js:3:3)";
            "    at caller (app.js:4:4)"]); reflexivity.
Defined.

(** ** Iterating through wrappers *)

Lemma get_iterator_nest (wrappers : list Wrapper) (payload : Value)
    (it : Iterator) :
  get_iterator payload = Datatypes.Some it ->
  get_iterator (nest wrappers payload) = Datatypes.Some it.
Proof.
  intros H. induction wrappers as [|[|] inner IH]; simpl;
    [exact H | now rewrite IH | now rewrite IH].
Qed.

Lemma length_string_chars (s : string) :
  List.length (string_chars s) = String.length s.
Proof.
  unfold string_chars. rewrite length_map.
  induction s as [|c s IH]; simpl; congruence.
Qed.

(** X18: iteration looks through any number of [Some] and [Ok] wrappers
    around the payload: an array at the core yields its items, a string its
    characters, and a [None] or an [Err] at the core yields nothing. *)
Theorem iteration_through_wrappers (wrappers : list Wrapper)
    (items : list Value) (s : string) (e : Value) (st : string) :
  for_of (S (List.length items))
    (BaseOption.iterator (Some (nest wrappers (VArray items)))) =
    Datatypes.Some items /\
  for_of (S (List.length items))
    (BaseResult.iterator (Ok (nest wrappers (VArray items)))) =
    Datatypes.Some items /\
  for_of (S (String.length s))
    (BaseOption.iterator (Some (nest wrappers (VString s)))) =
    Datatypes.Some (string_chars s) /\
  (forall fuel : nat,
      for_of (S fuel)
        (BaseOption.iterator (Some (nest wrappers (VOption None)))) =
      Datatypes.Some []) /\
  (forall fuel : nat,
      for_of (S fuel)
        (BaseResult.iterator (Ok (nest wrappers (VResult (Err e st))))) =
      Datatypes.Some []).
Proof.
  unfold BaseOption.iterator, BaseResult.iterator.
  cbn [Option_iterator Result_iterator].
  rewrite (get_iterator_nest wrappers (VArray items) (SeqIterator items 0))
    by reflexivity.
  rewrite (get_iterator_nest wrappers (VString s)
             (SeqIterator (string_chars s) 0)) by reflexivity.
  rewrite (get_iterator_nest wrappers (VOption None) EmptyIterator)
    by reflexivity.
  rewrite (get_iterator_nest wrappers (VResult (Err e st)) EmptyIterator)
    by reflexivity.
  repeat split.
  - rewrite for_of_SeqIterator by lia. reflexivity.
  - rewrite for_of_SeqIterator by lia. reflexivity.
  - rewrite for_of_SeqIterator by (rewrite length_string_chars; lia).
    reflexivity.
Qed.
